(** * inPolygon.contains: a shallow embedding and its properties

    The module [inPolygon.py] holds one function, [contains], which
    validates the polygon and the query coordinates and then runs a
    ray-casting crossing test for each query point.  The embedding below
    follows the function line by line:

    - coordinates are IEEE 754 binary64 numbers (Python's [float], the
      element type of [np.asarray(..., dtype=float)]), modelled by Rocq's
      primitive [float];
    - an argument is either a bare number or a one-dimensional sequence
      with a length ([arraylike]);
    - [raise] is the [Raise] constructor of a small exception monad, and
      the exceptions carry the messages of the source;
    - list indexing is stdpp's lookup [!!], item assignment its insert;
    - the generator [lines()] is the list of the edges it yields: the loop
      that consumes it only updates a local flag, so an exception raised
      while generating has the same effect early or late.

    The function is [contains]; [classify] is the part of its body that
    follows the polygon checks (lines 45-91), stated apart because the
    checks, as written on line 40, let no polygon through. *)

From Stdlib Require Import ZArith Bool Lia.
From Stdlib Require Import Floats.
From stdpp Require Import base list strings.

Local Open Scope nat_scope.

(** ** Python values that the validation compares *)

(** [len != len(polyy)] on line 40 compares the built-in function [len]
    itself with an integer, so the model needs both kinds of object. *)
Inductive pyobj : Type :=
  | PyBuiltin (name : string)
  | PyInt (n : Z).

(** Python's [!=]: objects of unrelated types are never equal. *)
Definition py_ne (a b : pyobj) : bool :=
  match a, b with
  | PyInt m, PyInt n => negb (m =? n)%Z
  | PyBuiltin f, PyBuiltin g => negb (String.eqb f g)
  | _, _ => true
  end.

(** ** Exceptions *)

Inductive exn : Type :=
  | TypeError (msg : string)
  | ValueError (msg : string)
  | IndexError (msg : string).

Inductive exc (A : Type) : Type :=
  | Return (a : A)
  | Raise (e : exn).
Arguments Return {A} a.
Arguments Raise {A} e.

#[global] Instance exc_ret : MRet exc := fun _ a => Return a.
#[global] Instance exc_bind : MBind exc := fun _ _ k m =>
  match m with
  | Return a => k a
  | Raise e => Raise e
  end.

(** The error kinds of the specification, and the kind of each exception
    that [contains] raises on its own. *)
Inductive error_kind : Type :=
  | InvalidArgumentType
  | DimensionMismatch
  | InsufficientVertices.

Definition msg_not_iterable : string := "polyx, polyy must be iterable".
Definition msg_poly_size : string := "polyx, poly must be of same size".
Definition msg_too_few : string := "polygon must consist of at least three points".
Definition msg_line_shape : string := "linex, liney must be of same shape".

Definition kind_of (e : exn) : option error_kind :=
  match e with
  | TypeError _ => Some InvalidArgumentType
  | ValueError m =>
      if String.eqb m msg_too_few then Some InsufficientVertices
      else if String.eqb m msg_poly_size || String.eqb m msg_line_shape
      then Some DimensionMismatch
      else None
  | IndexError _ => None
  end.

(** ** Arguments and results *)

Inductive arraylike : Type :=
  | Scalar (v : float)
  | Seq (l : list float).

Inductive pyresult : Type :=
  | RBool (b : bool)
  | RArray (mask : list bool).

Definition point : Type := float * float.
Definition edge : Type := point * point.

(** [iter(a)]: a bare number is not iterable. *)
Definition iter (a : arraylike) : exc (list float) :=
  match a with
  | Seq l => Return l
  | Scalar _ => Raise (TypeError "object is not iterable")
  end.

(** [l[i]] for [i >= 0], and [l[-1]]. *)
Definition getitem {A} (l : list A) (i : nat) : exc A :=
  match l !! i with
  | Some a => Return a
  | None => Raise (IndexError "index out of range")
  end.

Definition getitem_last {A} (l : list A) : exc A :=
  match last l with
  | Some a => Return a
  | None => Raise (IndexError "index out of range")
  end.

(** [l[i] = v] on an array. *)
Definition setitem {A} (l : list A) (i : nat) (v : A) : exc (list A) :=
  if decide (i < length l) then Return (<[i:=v]> l)
  else Raise (IndexError "index out of bounds").

(** Python's [a > b] on floats. *)
Definition gtb (a b : float) : bool := (b <? a)%float.

(** ** Lines 33-43: the polygon checks *)

(** Line 40 is [if len != len(polyy)]: the left operand is the function
    [len], not [len(polyx)].  Line 42 compares [len(polyx)] with 3. *)
Definition check_polygon (polyx polyy : arraylike)
  : exc (list float * list float) :=
  match iter polyx, iter polyy with
  | Return px, Return py =>
      if py_ne (PyBuiltin "len") (PyInt (Z.of_nat (length py)))
      then Raise (ValueError msg_poly_size)
      else if length px <? 3
      then Raise (ValueError msg_too_few)
      else Return (px, py)
  | _, _ => Raise (TypeError msg_not_iterable)
  end.

(** ** Lines 45-64: scalar or sequence query coordinates *)

(** One [try: iter(a) ... else: ...] block: the coordinate as an array,
    and the updated [single_val] flag. *)
Definition asarray (a : arraylike) (single_val : bool) : list float * bool :=
  match a with
  | Scalar v => ([v], single_val)
  | Seq l => (l, false)
  end.

(** The shape of a one-dimensional array is its length. *)
Definition cast_lines (linex liney : arraylike)
  : exc (list float * list float * bool) :=
  let single_val := true in
  let '(lx, single_val) := asarray linex single_val in
  let '(ly, single_val) := asarray liney single_val in
  if negb (length lx =? length ly)
  then Raise (ValueError msg_line_shape)
  else Return (lx, ly, single_val).

(** ** Lines 66-75: the generator of edges *)

Fixpoint lines_from (polyy : list float) (i : nat) (xs : list float)
    (p0 : point) : exc (list edge) :=
  match xs with
  | [] => Return []
  | x :: xs' =>
      y ← getitem polyy i;
      let p1 := (x, y) in
      rest ← lines_from polyy (S i) xs' p1;
      Return ((p0, p1) :: rest)
  end.

Definition lines (polyx polyy : list float) : exc (list edge) :=
  p0x ← getitem_last polyx;
  p0y ← getitem_last polyy;
  lines_from polyy 0 polyx (p0x, p0y).

(** ** Lines 80-84: the crossing test of one query point *)

Definition straddles (y : float) (e : edge) : bool :=
  let '((_, p0y), (_, p1y)) := e in
  xorb (gtb p0y y) (gtb p1y y).

Definition xcross (y : float) (e : edge) : float :=
  let '((p0x, p0y), (p1x, p1y)) := e in
  ((p1x - p0x) * (y - p0y) / (p1y - p0y) + p0x)%float.

(** The state of the inner loop: the flag [result], and the edges for
    which the division of line 83 has been evaluated so far.  Python's
    [and] evaluates its right operand only when the left one is true. *)
Definition ray_step (x y : float) (st : bool * list edge) (e : edge)
  : bool * list edge :=
  let '(result, divided) := st in
  if straddles y e
  then (if (x <? xcross y e)%float then negb result else result,
        divided ++ [e])
  else (result, divided).

Definition ray_trace (x y : float) (es : list edge) : bool * list edge :=
  fold_left (ray_step x y) es (false, []).

Definition ray (x y : float) (es : list edge) : bool :=
  fst (ray_trace x y es).

(** ** Lines 77-85: the loop over the query points *)

(** The body of the outer loop up to the assignment: [lines()] is called
    anew for each point and consumed by the inner loop. *)
Definition crossing_test (polyx polyy : list float) (x y : float) : exc bool :=
  es ← lines polyx polyy;
  Return (ray x y es).

Fixpoint mask_loop (polyx polyy liney : list float) (i : nat)
    (xs : list float) (mask : list bool) : exc (list bool) :=
  match xs with
  | [] => Return mask
  | x :: xs' =>
      y ← getitem liney i;
      result ← crossing_test polyx polyy x y;
      mask' ← setitem mask i result;
      mask_loop polyx polyy liney (S i) xs' mask'
  end.

(** ** Lines 45-91: everything after the polygon checks *)

Definition classify (polyx polyy : list float) (linex liney : arraylike)
  : exc pyresult :=
  '(lx, ly, single_val) ← cast_lines linex liney;
  mask ← mask_loop polyx polyy ly 0 lx (replicate (length lx) false);
  if (single_val : bool)
  then b ← getitem mask 0; Return (RBool b)
  else Return (RArray mask).

(** ** The function *)

Definition contains (polyx polyy linex liney : arraylike) : exc pyresult :=
  '(px, py) ← check_polygon polyx polyy;
  classify px py linex liney.

(** ** The vocabulary of the specification *)

(** The closed edge list of a vertex list: first the pair (last vertex,
    first vertex), then the consecutive pairs in vertex order. *)
Definition closed_edges (vs : list point) : list edge :=
  match last vs with
  | Some vl => zip (vl :: vs) vs
  | None => []
  end.

(** An edge toggles the parity flag when exactly one of its end points
    lies strictly above [y] and [x] lies strictly left of the crossing. *)
Definition toggles (x y : float) (e : edge) : bool :=
  straddles y e && (x <? xcross y e)%float.

Definition parity_walk (x y : float) (es : list edge) : bool :=
  fold_left (fun flag e => if toggles x y e then negb flag else flag) es false.

(** The shape to which a query coordinate resolves: a scalar, or a
    sequence of some length. *)
Inductive shape : Type :=
  | ScalarShape
  | SeqShape (len : nat).

Definition shape_of (a : arraylike) : shape :=
  match a with
  | Scalar _ => ScalarShape
  | Seq l => SeqShape (length l)
  end.

Definition swap (e : edge) : edge := (e.2, e.1).

(** The pairs of neighbours of a list, in order. *)
Definition neighbours {A} (l : list A) : list (A * A) := zip l (tail l).

(** A query coordinate as the array the loop runs over. *)
Definition coordinates (a : arraylike) : list float := (asarray a true).1.

(** The number of edges that toggle the flag. *)
Definition crossings (x y : float) (es : list edge) : nat :=
  length (filter (fun e => toggles x y e) es).

(** ** Auxiliary measures on binary64 numbers *)

Ltac binary64_lia := unfold fexp, SpecFloat.emin, prec, emax in *; lia.

Definition shr_digits (mrs : shr_record) : Z := Zdigits2 (shr_m mrs).

Definition sf_nonzero (x : spec_float) : bool :=
  match x with
  | S754_zero _ => false
  | _ => true
  end.

Definition sf_zero_or_nan (x : spec_float) : bool :=
  match x with
  | S754_zero _ | S754_nan => true
  | _ => false
  end.

(** ** Polygons and query points of the examples *)

Definition square_x : list float := [0; 4; 4; 0]%float.
Definition square_y : list float := [0; 0; 4; 4]%float.
Definition triangle_x : list float := [0; 10; 5]%float.
Definition triangle_y : list float := [0; 0; 10]%float.

(** A triangle with a slanted edge, and the binary64 number nearest to
    one third. *)
Definition wedge_x : list float := [0; 1; 2]%float.
Definition wedge_y : list float := [0; 3; 0]%float.
Definition third : float := Eval cbv in (1 / 3)%float.

(** * Binary64 arithmetic: a difference is zero only between equal numbers

    The divisor on line 83 is [p1y - p0y].  In binary64 the difference of
    two numbers rounds to zero only when they are equal (subnormal numbers
    make small differences representable), and comparison cannot tell
    equal numbers apart.  The lemmas follow the operations of [SpecFloat],
    to which the primitive operations are tied by [FloatAxioms]. *)

Module Binary64.

Local Open Scope Z_scope.

Lemma digits2_pos_iter_xO (d m : positive) :
  Z.pos (digits2_pos (Pos.iter xO m d)) = Z.pos (digits2_pos m) + Z.pos d.
Proof.
  induction d as [| d IH] using Pos.peano_ind.
  - cbn. lia.
  - rewrite Pos.iter_succ. cbn [digits2_pos]. lia.
Qed.

(** Aligning a mantissa to a smaller exponent keeps [digits + exponent]. *)
Lemma shl_align_digits (m : positive) (e ez : Z) :
  ez <= e ->
  Z.pos (digits2_pos (fst (shl_align m e ez))) + ez = Z.pos (digits2_pos m) + e.
Proof.
  intros Hle. unfold shl_align.
  destruct (ez - e) as [| d | d] eqn:Hd; cbn [fst]; try lia.
  rewrite digits2_pos_iter_xO. lia.
Qed.

Lemma shl_align_same (m : positive) (e : Z) : fst (shl_align m e e) = m.
Proof. unfold shl_align. now rewrite Z.sub_diag. Qed.

Lemma shl_align_exp (m : positive) (e e' : Z) :
  emin <= e -> emin <= e' -> emin <= snd (shl_align m e e').
Proof. intros. unfold shl_align. now destruct (e' - e). Qed.

Lemma canonical_exp (m : positive) (e : Z) :
  canonical_mantissa prec emax m e = true ->
  fexp prec emax (Z.pos (digits2_pos m) + e) = e.
Proof. unfold canonical_mantissa. apply Z.eqb_eq. Qed.

Lemma bounded_emin (m : positive) (e : Z) :
  bounded prec emax m e = true -> emin <= e.
Proof.
  unfold bounded. intros [H _]%andb_true_iff. apply canonical_exp in H.
  binary64_lia.
Qed.

(** Two canonical mantissas that agree once aligned are the same. *)
Lemma aligned_eq (mx my : positive) (ex ey : Z) :
  bounded prec emax mx ex = true ->
  bounded prec emax my ey = true ->
  fst (shl_align mx ex (Z.min ex ey)) = fst (shl_align my ey (Z.min ex ey)) ->
  mx = my /\ ex = ey.
Proof.
  unfold bounded. intros [Hx _]%andb_true_iff [Hy _]%andb_true_iff Heq.
  apply canonical_exp in Hx, Hy.
  assert (Hd : Z.pos (digits2_pos mx) + ex = Z.pos (digits2_pos my) + ey).
  { rewrite <- (shl_align_digits mx ex (Z.min ex ey)) by lia.
    rewrite <- (shl_align_digits my ey (Z.min ex ey)) by lia.
    now rewrite Heq. }
  assert (He : ex = ey) by (rewrite <- Hx, <- Hy; now rewrite Hd).
  subst ey. rewrite Z.min_id, !shl_align_same in Heq. now split.
Qed.

(** *** Shifting right keeps a mantissa positive while digits remain *)

Lemma shr_1_digits (mrs : shr_record) :
  0 <= shr_m mrs ->
  0 <= shr_m (shr_1 mrs) /\ shr_digits (shr_1 mrs) = Z.max 0 (shr_digits mrs - 1).
Proof.
  destruct mrs as [m r s]. unfold shr_digits. cbn [shr_m].
  destruct m as [| [p | p |] | p];
    cbn [shr_1 shr_m Zdigits2 digits2_pos]; intros H;
    rewrite ?Pos2Z.inj_succ; lia.
Qed.

Lemma iter_shr_1_digits (p : positive) (mrs : shr_record) :
  0 <= shr_m mrs ->
  0 <= shr_m (SpecFloat.iter_pos shr_1 p mrs)
  /\ shr_digits (SpecFloat.iter_pos shr_1 p mrs) = Z.max 0 (shr_digits mrs - Z.pos p).
Proof.
  revert mrs. induction p as [p IH | p IH |]; intros mrs H; cbn [SpecFloat.iter_pos].
  - destruct (shr_1_digits mrs H) as [H1 E1].
    destruct (IH _ H1) as [H2 E2]. destruct (IH _ H2) as [H3 E3].
    split; [assumption |]. rewrite E3, E2, E1. lia.
  - destruct (IH _ H) as [H2 E2]. destruct (IH _ H2) as [H3 E3].
    split; [assumption |]. rewrite E3, E2. lia.
  - apply shr_1_digits, H.
Qed.

Lemma digits_pos (m : Z) : 0 <= m -> 0 < Zdigits2 m -> 0 < m.
Proof. destruct m; cbn; lia. Qed.

Lemma Zdigits2_pos (m : Z) : 0 < m -> 0 < Zdigits2 m.
Proof. destruct m; cbn; lia. Qed.

Lemma shr_record_of_loc_m m l : shr_m (shr_record_of_loc m l) = m.
Proof. now destruct l as [| []]. Qed.

Lemma shr_fexp_pos (m e : Z) (l : location) :
  0 < m -> emin <= e ->
  0 < shr_m (fst (shr_fexp prec emax m e l))
  /\ emin <= snd (shr_fexp prec emax m e l).
Proof.
  intros Hm He. unfold shr_fexp, shr.
  pose proof (Zdigits2_pos m Hm) as Hd.
  destruct (fexp prec emax (Zdigits2 m + e) - e) as [| n | n] eqn:Hn;
    cbn [fst snd]; rewrite ?shr_record_of_loc_m; try (split; lia).
  assert (Hlt : Z.pos n < Zdigits2 m).
  { binary64_lia. }
  destruct (iter_shr_1_digits n (shr_record_of_loc m l)) as [H0 E].
  { rewrite shr_record_of_loc_m. lia. }
  unfold shr_digits in E. rewrite shr_record_of_loc_m in E.
  split; [| lia]. apply digits_pos; [assumption | lia].
Qed.

Lemma round_nearest_even_pos (m : Z) (l : location) :
  0 < m -> 0 < round_nearest_even m l.
Proof. destruct l as [| []]; cbn; try destruct (Z.even m); lia. Qed.

Lemma binary_round_aux_nonzero (s : bool) (m e : Z) (l : location) :
  0 < m -> emin <= e -> sf_nonzero (binary_round_aux prec emax s m e l) = true.
Proof.
  intros Hm He. unfold binary_round_aux.
  destruct (shr_fexp_pos m e l Hm He) as [H1 H2].
  destruct (shr_fexp prec emax m e l) as [mrs' e']. cbn [fst snd] in H1, H2.
  pose proof (round_nearest_even_pos _ (loc_of_shr_record mrs') H1) as H3.
  destruct (shr_fexp_pos _ e' loc_Exact H3 H2) as [H4 _].
  destruct (shr_fexp prec emax _ e' loc_Exact) as [mrs'' e''].
  cbn [fst] in H4. destruct (shr_m mrs''); try lia.
  now destruct (e'' <=? emax - prec).
Qed.

Lemma binary_round_nonzero (s : bool) (m : positive) (e : Z) :
  emin <= e -> sf_nonzero (binary_round prec emax s m e) = true.
Proof.
  intros He. unfold binary_round.
  pose proof (shl_align_exp m e (fexp prec emax (Z.pos (digits2_pos m) + e)) He) as H.
  destruct (shl_align m e _) as [mz ez]. cbn [snd] in H.
  apply binary_round_aux_nonzero; [lia |]. apply H. unfold fexp. lia.
Qed.

(** *** Comparison does not tell apart two numbers whose difference is zero *)

Lemma SFcompare_zero_sign (z : spec_float) (s s' : bool) :
  SFcompare z (S754_zero s) = SFcompare z (S754_zero s').
Proof. now destruct z. Qed.

Lemma SFsub_zero (x y : spec_float) :
  valid_binary x = true -> valid_binary y = true ->
  sf_nonzero (SF64sub x y) = false ->
  forall z, SFcompare z x = SFcompare z y.
Proof.
  intros Hx Hy H z.
  destruct x as [sx | sx | | sx mx ex], y as [sy | sy | | sy my ey];
    try (now destruct sx, sy); try discriminate H.
  cbn [valid_binary SpecFloat.valid_binary] in Hx, Hy.
  pose proof (bounded_emin _ _ Hx). pose proof (bounded_emin _ _ Hy).
  unfold SF64sub, SFsub, binary_normalize in H.
  destruct (_ - _) as [| m | m] eqn:Hm.
  - assert (sx = sy /\ fst (shl_align mx ex (Z.min ex ey))
                       = fst (shl_align my ey (Z.min ex ey))) as [-> Ha].
    { revert Hm. destruct sx, sy; cbn [cond_Zopp]; lia. }
    now destruct (aligned_eq _ _ _ _ Hx Hy Ha) as [-> ->].
  - rewrite binary_round_nonzero in H by lia. discriminate.
  - rewrite binary_round_nonzero in H by lia. discriminate.
Qed.

Lemma SFcompare_Eq (x y : spec_float) :
  SFcompare x y = Some Eq -> forall z, SFcompare z x = SFcompare z y.
Proof.
  intros H z.
  destruct x as [sx | sx | | sx mx ex], y as [sy | sy | | sy my ey];
    cbn in H; try discriminate; try (now destruct sx, sy);
    try (now destruct sx); try (now destruct sy).
  assert (sx = sy /\ ex = ey /\ mx = my) as (-> & -> & ->); [| reflexivity].
    destruct sx, sy; try discriminate;
      destruct (Z.compare_spec ex ey); try discriminate;
      (split; [reflexivity | split; [assumption |]]);
      apply Pos.compare_eq; unfold Pos.compare;
      destruct (Pos.compare_cont Eq mx my); now try discriminate.
Qed.

(** *** The same facts on primitive floats *)

Lemma is_zero_spec (d : float) : is_zero d = negb (sf_nonzero (Prim2SF d)).
Proof.
  unfold is_zero. rewrite FloatAxioms.eqb_spec.
  change (Prim2SF zero) with (S754_zero false).
  unfold SFeqb. now destruct (Prim2SF d) as [[] | [] | | [] ? ?].
Qed.

Lemma sub_zero_ltb (a b : float) :
  is_zero (b - a) = true -> forall y, (y <? a)%float = (y <? b)%float.
Proof.
  intros H y. rewrite is_zero_spec, FloatAxioms.sub_spec in H.
  apply negb_true_iff in H.
  rewrite !FloatAxioms.ltb_spec. unfold SFltb.
  now rewrite (SFsub_zero _ _ (Prim2SF_valid b) (Prim2SF_valid a) H).
Qed.

Lemma eqb_ltb (a b : float) :
  (a =? b)%float = true -> forall y, (y <? a)%float = (y <? b)%float.
Proof.
  intros H y. rewrite FloatAxioms.eqb_spec in H. unfold SFeqb in H.
  rewrite !FloatAxioms.ltb_spec. unfold SFltb.
  destruct (SFcompare (Prim2SF a) (Prim2SF b)) as [[] |] eqn:E;
    try discriminate.
  now rewrite (SFcompare_Eq _ _ E).
Qed.

End Binary64.


(** * The exception monad *)

Lemma bind_Return {A B} (k : A -> exc B) (a : A) : (Return a ≫= k) = k a.
Proof. reflexivity. Qed.

Lemma bind_Raise {A B} (k : A -> exc B) (e : exn) : (Raise e ≫= k) = Raise e.
Proof. reflexivity. Qed.

Lemma getitem_Some {A} (l : list A) (i : nat) (a : A) :
  l !! i = Some a -> getitem l i = Return a.
Proof. unfold getitem. now intros ->. Qed.

Lemma setitem_lt {A} (l : list A) (i : nat) (v : A) :
  i < length l -> setitem l i v = Return (<[i:=v]> l).
Proof. intros H. unfold setitem. now rewrite decide_True. Qed.

(** * The polygon checks *)

(** The built-in [len] is not an integer, so the comparison of line 40
    holds whatever the length is. *)
Lemma len_ne_int (n : Z) : py_ne (PyBuiltin "len") (PyInt n) = true.
Proof. reflexivity. Qed.

Lemma check_polygon_Seq (px py : list float) :
  check_polygon (Seq px) (Seq py) = Raise (ValueError msg_poly_size).
Proof. unfold check_polygon. cbn [iter]. now rewrite len_ne_int. Qed.

Lemma check_polygon_Raise (polyx polyy : arraylike) :
  exists e, check_polygon polyx polyy = Raise e.
Proof.
  destruct polyx as [v | px], polyy as [w | py];
    try (now eexists); rewrite check_polygon_Seq; now eexists.
Qed.

Lemma contains_Seq (px py : list float) (linex liney : arraylike) :
  contains (Seq px) (Seq py) linex liney = Raise (ValueError msg_poly_size).
Proof. unfold contains. now rewrite check_polygon_Seq. Qed.

(** The function returns no result, whatever its arguments. *)
Lemma contains_Raise (polyx polyy linex liney : arraylike) :
  exists e, contains polyx polyy linex liney = Raise e.
Proof.
  unfold contains.
  destruct (check_polygon_Raise polyx polyy) as [e ->]. now exists e.
Qed.

(** * The generator of edges *)

Section Lines.

Implicit Types xs ys px py : list float.

Lemma lines_from_zip xs : forall ys pre i (p0 : point),
  length pre = i -> length xs = length ys ->
  lines_from (pre ++ ys) i xs p0
  = Return (zip (p0 :: zip xs ys) (zip xs ys)).
Proof.
  induction xs as [| x xs IH]; intros [| y ys] pre i p0 Hi Hlen;
    try discriminate Hlen; [reflexivity |].
  cbn [lines_from].
  rewrite (getitem_Some _ _ y), bind_Return
    by (subst i; apply list_lookup_middle; reflexivity).
  rewrite (cons_middle y pre ys), app_assoc.
  rewrite IH; [reflexivity | | cbn in Hlen; lia].
  rewrite length_app. cbn. lia.
Qed.

Lemma lines_from_length xs : forall polyy i (p0 : point) es,
  lines_from polyy i xs p0 = Return es -> length es = length xs.
Proof.
  induction xs as [| x xs IH]; intros polyy i p0 es; cbn [lines_from].
  - now intros [= <-].
  - destruct (getitem polyy i) as [y |]; [| discriminate]. cbn.
    destruct (lines_from polyy (S i) xs (x, y)) as [rest |] eqn:E;
      [| discriminate].
    cbn. intros [= <-]. cbn. f_equal. eapply IH, E.
Qed.

Lemma last_zip px : forall py a b,
  length px = length py -> last px = Some a -> last py = Some b ->
  last (zip px py) = Some (a, b).
Proof.
  induction px as [| x px IH]; intros [| y py] a b Hlen Ha Hb;
    try discriminate.
  destruct px as [| x' px], py as [| y' py]; try discriminate.
  - cbn in *. congruence.
  - change (last (zip (x' :: px) (y' :: py)) = Some (a, b)).
    apply IH; [cbn in Hlen |- *; lia | exact Ha | exact Hb].
Qed.

Lemma last_is_Some {A} (l : list A) : l <> [] -> exists a, last l = Some a.
Proof.
  intros H. destruct (last l) as [a |] eqn:E; [now exists a |].
  now apply last_None in E.
Qed.

(** On coordinate lists of one length, [lines()] yields the closed edge
    list of the vertices. *)
Lemma lines_closed_edges px py :
  length px = length py -> px <> [] ->
  lines px py = Return (closed_edges (zip px py)).
Proof.
  intros Hlen Hne.
  destruct (last_is_Some px Hne) as [a Ha].
  destruct (last_is_Some py) as [b Hb].
  { intros ->. destruct px; [congruence | discriminate]. }
  unfold lines, getitem_last, closed_edges.
  unfold point. rewrite Ha, Hb, (last_zip _ _ _ _ Hlen Ha Hb), !bind_Return.
  apply (lines_from_zip px py [] 0); [reflexivity | exact Hlen].
Qed.

(** The generator yields one edge per vertex. *)
Lemma lines_length px py es :
  lines px py = Return es -> length es = length px.
Proof.
  unfold lines.
  destruct (getitem_last px) as [a |]; [| discriminate].
  destruct (getitem_last py) as [b |]; [| discriminate].
  cbn. apply lines_from_length.
Qed.

Lemma closed_edges_length (vs : list point) :
  length (closed_edges vs) = length vs.
Proof.
  unfold closed_edges. destruct (last vs) as [vl |] eqn:E.
  - rewrite length_zip_with, length_cons. lia.
  - apply last_None in E. now subst.
Qed.

End Lines.

(** * The crossing test of one point *)

Section Ray.

Variables x y : float.

Lemma ray_step_fold (es : list edge) : forall result divided,
  fold_left (ray_step x y) es (result, divided)
  = (fold_left (fun flag e => if toggles x y e then negb flag else flag)
       es result,
     divided ++ List.filter (straddles y) es).
Proof.
  induction es as [| e es IH]; intros result divided;
    cbn [fold_left List.filter].
  - now rewrite app_nil_r.
  - unfold ray_step at 2, toggles.
    destruct (straddles y e); cbn [andb]; rewrite IH; [| reflexivity].
    now rewrite <- app_assoc.
Qed.

(** The flag computed by the inner loop is the parity walk of the
    specification. *)
Lemma ray_parity_walk (es : list edge) : ray x y es = parity_walk x y es.
Proof. unfold ray, ray_trace. now rewrite ray_step_fold. Qed.

(** The division is evaluated for the straddling edges, and for no other. *)
Lemma ray_trace_divided (es : list edge) :
  (ray_trace x y es).2 = List.filter (straddles y) es.
Proof. unfold ray_trace. now rewrite ray_step_fold. Qed.

Lemma parity_fold (es : list edge) : forall flag,
  fold_left (fun flag e => if toggles x y e then negb flag else flag) es flag
  = xorb flag (Nat.odd (crossings x y es)).
Proof.
  unfold crossings.
  induction es as [| e es IH]; intros flag; cbn [fold_left].
  - now rewrite xorb_false_r.
  - rewrite IH, filter_cons. case_decide as Ht.
    + apply Is_true_true in Ht. rewrite Ht.
      cbn [length]. rewrite Nat.odd_succ, <- Nat.negb_odd.
      now destruct flag, (Nat.odd _).
    + apply Is_true_false in Ht. now rewrite Ht.
Qed.

(** True exactly when the number of crossings to the right is odd. *)
Lemma ray_odd_crossings (es : list edge) :
  ray x y es = Nat.odd (crossings x y es).
Proof. rewrite ray_parity_walk. unfold parity_walk. now rewrite parity_fold. Qed.

Lemma crossings_Permutation (es es' : list edge) :
  es ≡ₚ es' -> crossings x y es = crossings x y es'.
Proof. intros H. unfold crossings. now rewrite H. Qed.

Lemma crossings_swap (es : list edge) :
  Forall (fun e => toggles x y (swap e) = toggles x y e) es ->
  crossings x y (swap <$> es) = crossings x y es.
Proof.
  unfold crossings. induction 1 as [| e es He _ IH]; [reflexivity |].
  rewrite fmap_cons, !filter_cons, He.
  destruct (decide (toggles x y e)); cbn [length]; now rewrite IH.
Qed.

End Ray.

(** * Reversing the vertex order *)

Section Reverse.

Context {A : Type}.
Implicit Types l : list A.

Lemma neighbours_snoc l (a : A) :
  neighbours (l ++ [a])
  = neighbours l ++ match last l with Some b => [(b, a)] | None => [] end.
Proof.
  unfold neighbours. induction l as [| b l IH]; [reflexivity |].
  destruct l as [| c l]; [reflexivity |].
  cbn [app tail zip_with] in IH |- *. rewrite IH.
  now rewrite last_cons_cons.
Qed.

Lemma neighbours_cons l (a b : A) :
  neighbours (a :: b :: l) = (a, b) :: neighbours (b :: l).
Proof. reflexivity. Qed.

Lemma neighbours_reverse l :
  neighbours (reverse l) = reverse ((fun p => (p.2, p.1)) <$> neighbours l).
Proof.
  induction l as [| a l IH]; [reflexivity |].
  rewrite reverse_cons, neighbours_snoc, IH, last_reverse.
  destruct l as [| b l]; [reflexivity |].
  cbn [head]. rewrite neighbours_cons, fmap_cons, reverse_cons.
  reflexivity.
Qed.

End Reverse.

Lemma closed_edges_last (vs : list point) (vl : point) :
  last vs = Some vl -> closed_edges vs = neighbours (vl :: vs).
Proof. intros Hl. unfold closed_edges. now rewrite Hl. Qed.

(** The closed edges of the reversed polygon are those of the polygon,
    each taken in the other direction. *)
Lemma closed_edges_reverse (vs : list point) :
  closed_edges (reverse vs) ≡ₚ swap <$> closed_edges vs.
Proof.
  destruct vs as [| v0 vs]; [reflexivity |].
  destruct (last (v0 :: vs)) as [vl |] eqn:Hl; cycle 1.
  { now apply last_None in Hl. }
  rewrite (closed_edges_last _ vl Hl), neighbours_cons.
  rewrite (closed_edges_last (reverse (v0 :: vs)) v0)
    by now rewrite last_reverse.
  rewrite <- reverse_snoc, neighbours_reverse, neighbours_snoc, Hl.
  rewrite reverse_Permutation, fmap_app, fmap_cons.
  now rewrite <- Permutation_cons_append.
Qed.

Lemma zip_reverse {A B} (l : list A) : forall k : list B,
  length l = length k -> zip (reverse l) (reverse k) = reverse (zip l k).
Proof.
  induction l as [| a l IH]; intros [| b k] Hlen; try discriminate Hlen;
    [reflexivity |].
  cbn [zip_with]. rewrite !reverse_cons, zip_with_app, IH.
  - reflexivity.
  - cbn in Hlen. lia.
  - rewrite !length_reverse. cbn in Hlen. lia.
Qed.

(** The crossing test of a point gives the same flag on the reversed
    polygon whenever each edge toggles the flag in both directions alike. *)
Lemma crossing_test_reverse (px py : list float) (x y : float) :
  length px = length py ->
  Forall (fun e => toggles x y (swap e) = toggles x y e)
    (closed_edges (zip px py)) ->
  crossing_test (reverse px) (reverse py) x y = crossing_test px py x y.
Proof.
  intros Hlen Hsym. destruct (decide (px = [])) as [-> | Hne].
  { destruct py; [reflexivity | discriminate]. }
  unfold crossing_test.
  rewrite (lines_closed_edges px py Hlen Hne).
  rewrite lines_closed_edges, zip_reverse by
    (rewrite ?length_reverse; try assumption;
     intros E; apply (f_equal length) in E;
     rewrite length_reverse in E; now destruct px).
  rewrite !bind_Return, !ray_odd_crossings.
  rewrite (crossings_Permutation _ _ _ _ (closed_edges_reverse _)).
  now rewrite crossings_swap.
Qed.

(** * The loop over the query points *)

Section Mask.

Variables (px py : list float) (es : list edge).
Hypothesis lines_es : lines px py = Return es.

Lemma crossing_test_Return (x y : float) :
  crossing_test px py x y = Return (ray x y es).
Proof. unfold crossing_test. now rewrite lines_es. Qed.

Lemma mask_loop_spec (xs : list float) : forall (ly : list float) i mask,
  i + length xs = length mask -> i + length xs <= length ly ->
  mask_loop px py ly i xs mask
  = Return (take i mask ++ zip_with (fun x y => ray x y es) xs (drop i ly)).
Proof.
  induction xs as [| x xs IH]; intros ly i mask Hm Hl; cbn [mask_loop].
  - cbn in Hm. rewrite take_ge by lia. now rewrite app_nil_r.
  - cbn [length] in Hm, Hl.
    destruct (lookup_lt_is_Some_2 ly i) as [y Hy]; [lia |].
    rewrite (getitem_Some _ _ _ Hy), bind_Return.
    rewrite crossing_test_Return, bind_Return.
    rewrite setitem_lt, bind_Return by lia.
    rewrite IH by (rewrite ?length_insert; lia).
    rewrite (drop_S _ _ _ Hy). cbn [zip_with].
    rewrite (take_S_r _ _ (ray x y es))
      by (apply list_lookup_insert_eq; lia).
    rewrite take_insert_ge by lia.
    now rewrite <- app_assoc.
Qed.

Lemma classify_scalar (x y : float) :
  classify px py (Scalar x) (Scalar y) = Return (RBool (ray x y es)).
Proof.
  unfold classify, cast_lines. cbn.
  now rewrite crossing_test_Return.
Qed.

Lemma classify_array (linex liney : arraylike) :
  (shape_of linex, shape_of liney) <> (ScalarShape, ScalarShape) ->
  length (coordinates linex) = length (coordinates liney) ->
  classify px py linex liney
  = Return (RArray (zip_with (fun x y => ray x y es)
                      (coordinates linex) (coordinates liney))).
Proof.
  intros Hshape Hlen.
  destruct linex as [x | lx], liney as [y | ly];
    [now contradict Hshape | ..];
    unfold classify, cast_lines, coordinates in *;
    cbn [asarray fst snd] in *;
    apply Nat.eqb_eq in Hlen as Hb; rewrite Hb; cbn [negb];
    rewrite bind_Return, mask_loop_spec
      by (rewrite ?length_replicate; lia);
    reflexivity.
Qed.

End Mask.

Lemma classify_shape (px py : list float) (linex liney : arraylike) :
  length (coordinates linex) <> length (coordinates liney) ->
  classify px py linex liney = Raise (ValueError msg_line_shape).
Proof.
  intros Hlen.
  destruct linex as [x | lx], liney as [y | ly];
    unfold classify, cast_lines, coordinates in *;
    cbn [asarray fst snd] in *;
    apply Nat.eqb_neq in Hlen; now rewrite Hlen.
Qed.

(** * What the body computes once the polygon checks are behind *)

(** The steps of the specification: a scalar query on a polygon of [N]
    vertices walks its [N] closed edges and returns the final flag. *)
Lemma classify_scalar_walk (px py : list float) (x y : float) :
  length px = length py -> px <> [] ->
  classify px py (Scalar x) (Scalar y)
  = Return (RBool (parity_walk x y (closed_edges (zip px py))))
  /\ length (closed_edges (zip px py)) = length px.
Proof.
  intros Hlen Hne. split.
  - rewrite (classify_scalar _ _ _ (lines_closed_edges _ _ Hlen Hne)).
    now rewrite ray_parity_walk.
  - rewrite closed_edges_length, length_zip_with. lia.
Qed.

(** A sequence query gives one flag per point, in order, and each flag is
    the one that the point gets when it is the only query. *)
Lemma classify_pointwise (px py lx ly : list float) (i : nat) (x y : float) :
  length px = length py -> px <> [] -> length lx = length ly ->
  lx !! i = Some x -> ly !! i = Some y ->
  exists mask b,
    classify px py (Seq lx) (Seq ly) = Return (RArray mask)
    /\ length mask = length lx
    /\ mask !! i = Some b
    /\ classify px py (Scalar x) (Scalar y) = Return (RBool b).
Proof.
  intros Hlen Hne Hq Hx Hy.
  pose proof (lines_closed_edges _ _ Hlen Hne) as Hes.
  eexists _, _. split; [| split; [| split]].
  - now apply (classify_array _ _ _ Hes).
  - rewrite length_zip_with. cbn. lia.
  - rewrite lookup_zip_with. cbn. now rewrite Hx, Hy.
  - apply (classify_scalar _ _ _ Hes).
Qed.

(** The shape check by itself lets a scalar go with a sequence of one
    element: both are arrays of shape [(1,)] when it compares them. *)
Lemma classify_scalar_singleton (px py : list float) (x y : float) :
  length px = length py -> px <> [] ->
  exists b, classify px py (Scalar x) (Seq [y]) = Return (RArray [b]).
Proof.
  intros Hlen Hne.
  pose proof (lines_closed_edges _ _ Hlen Hne) as Hes.
  eexists. now rewrite (classify_array _ _ _ Hes).
Qed.

(** In binary64 the two directions of an edge can interpolate to
    neighbouring numbers, and a point between them is then classified
    differently on the reversed polygon. *)
Lemma crossing_test_reverse_rounding :
  xcross 1 ((0, 0), (1, 3))%float = third
  /\ (third <? xcross 1 ((1, 3), (0, 0)))%float = true
  /\ crossing_test wedge_x wedge_y third 1 = Return true
  /\ crossing_test (reverse wedge_x) (reverse wedge_y) third 1 = Return false.
Proof. repeat split; vm_compute; reflexivity. Qed.

(** * The divisor of line 83 *)

Lemma straddles_divisor (y : float) (e : edge) :
  straddles y e = true ->
  (e.1.2 =? e.2.2)%float = false /\ is_zero (e.2.2 - e.1.2) = false.
Proof.
  destruct e as [[p0x p0y] [p1x p1y]]. unfold straddles, gtb. cbn [fst snd].
  intros H. split.
  - destruct (p0y =? p1y)%float eqn:E; [| reflexivity].
    rewrite (Binary64.eqb_ltb _ _ E y), xorb_nilpotent in H. discriminate.
  - destruct (is_zero (p1y - p0y)) eqn:E; [| reflexivity].
    rewrite (Binary64.sub_zero_ltb _ _ E y), xorb_nilpotent in H.
    discriminate.
Qed.

(** * The claims *)

(** C1.  The claim: for every query point and valid polygon, [contains]
    walks the N closed edges, toggles a flag that starts at false on each
    straddling edge whose crossing lies strictly right of the point, and
    returns the final flag.  The function as written does not get that
    far: with the triangle (0,0), (10,0), (5,10) and the point (5,5) it
    raises the ValueError of line 41, while the body after the polygon
    checks, on the same input, returns the flag of the claimed walk over
    three edges. *)
Theorem contains_walk_unreached :
  contains (Seq triangle_x) (Seq triangle_y) (Scalar 5) (Scalar 5)
  = Raise (ValueError msg_poly_size)
  /\ classify triangle_x triangle_y (Scalar 5) (Scalar 5)
     = Return (RBool (parity_walk 5 5
                        (closed_edges (zip triangle_x triangle_y))))
  /\ length (closed_edges (zip triangle_x triangle_y)) = 3.
Proof.
  split; [apply contains_Seq |].
  now apply classify_scalar_walk.
Qed.

(** C2.  When the polygon coordinate sequences differ in length,
    [contains] fails with the DimensionMismatch error, and it does so in
    the polygon checks, before any edge is looked at.  (The comparison of
    line 40 holds for every length, so the same error is raised for
    sequences of one length too.) *)
Theorem poly_size_mismatch_raises (px py : list float)
    (linex liney : arraylike) :
  length px <> length py ->
  check_polygon (Seq px) (Seq py) = Raise (ValueError msg_poly_size)
  /\ contains (Seq px) (Seq py) linex liney = Raise (ValueError msg_poly_size)
  /\ kind_of (ValueError msg_poly_size) = Some DimensionMismatch.
Proof.
  intros _. split; [apply check_polygon_Seq |].
  split; [apply contains_Seq | reflexivity].
Qed.

Lemma poly_size_mismatch_raises_witness :
  length wedge_x <> length [0; 3]%float
  /\ check_polygon (Seq wedge_x) (Seq [0; 3]%float)
     = Raise (ValueError msg_poly_size)
  /\ contains (Seq wedge_x) (Seq [0; 3]%float) (Scalar 1) (Scalar 1)
     = Raise (ValueError msg_poly_size)
  /\ kind_of (ValueError msg_poly_size) = Some DimensionMismatch.
Proof.
  split; [discriminate |].
  apply (poly_size_mismatch_raises wedge_x [0; 3]%float). discriminate.
Defined.

(** C4.  The claim: scalar query coordinates give a single boolean, a
    sequence of K points gives K booleans in input order.  The function
    as written raises for both forms of query; the body after the polygon
    checks gives the claimed shapes. *)
Theorem contains_result_shape_unreached :
  contains (Seq square_x) (Seq square_y) (Scalar 2) (Scalar 2)
  = Raise (ValueError msg_poly_size)
  /\ contains (Seq square_x) (Seq square_y)
       (Seq [2; 5]%float) (Seq [2; 5]%float)
     = Raise (ValueError msg_poly_size)
  /\ classify square_x square_y (Scalar 2) (Scalar 2) = Return (RBool true)
  /\ classify square_x square_y (Seq [2; 5]%float) (Seq [2; 5]%float)
     = Return (RArray [true; false]).
Proof. repeat split; vm_compute; reflexivity. Qed.

(** C5.  The claim: a polygon of fewer than three vertices fails with the
    InsufficientVertices error.  With the two vertices (0,0), (1,1) the
    function raises the ValueError of line 41 instead, whose kind is
    DimensionMismatch; the check of line 42 is never evaluated. *)
Theorem two_vertices_other_error :
  contains (Seq [0; 1]%float) (Seq [0; 1]%float) (Scalar 0) (Scalar 0)
  = Raise (ValueError msg_poly_size)
  /\ kind_of (ValueError msg_poly_size) = Some DimensionMismatch
  /\ kind_of (ValueError msg_too_few) = Some InsufficientVertices.
Proof. repeat split. Qed.

(** C6.  In the crossing-test loop the division by [p1y - p0y] is
    evaluated for the straddling edges only, the end points of such an
    edge have different y-coordinates, and the divisor is not zero. *)
Theorem division_only_on_straddle (x y : float) (es : list edge) :
  (ray_trace x y es).2 = List.filter (straddles y) es
  /\ Forall (fun e => straddles y e = true
                      /\ (e.1.2 =? e.2.2)%float = false
                      /\ is_zero (e.2.2 - e.1.2) = false)
       (ray_trace x y es).2.
Proof.
  split; [apply ray_trace_divided |].
  rewrite (ray_trace_divided x y es). apply List.Forall_forall.
  intros e [_ He]%List.filter_In.
  split; [exact He | now apply (straddles_divisor y)].
Qed.

(** C8.  The claim: the i-th element of the result for a sequence of
    points is the boolean that [contains] returns for the i-th point
    alone.  The function as written raises for the sequence and for each
    point alone; the body after the polygon checks gives [true; false;
    true] for the three points and the same three booleans one by one. *)
Theorem contains_pointwise_unreached :
  contains (Seq triangle_x) (Seq triangle_y)
    (Seq [5; 0; 5]%float) (Seq [5; 10; 1]%float)
  = Raise (ValueError msg_poly_size)
  /\ contains (Seq triangle_x) (Seq triangle_y) (Scalar 0) (Scalar 10)
     = Raise (ValueError msg_poly_size)
  /\ classify triangle_x triangle_y
       (Seq [5; 0; 5]%float) (Seq [5; 10; 1]%float)
     = Return (RArray [true; false; true])
  /\ classify triangle_x triangle_y (Scalar 5) (Scalar 5)
     = Return (RBool true)
  /\ classify triangle_x triangle_y (Scalar 0) (Scalar 10)
     = Return (RBool false)
  /\ classify triangle_x triangle_y (Scalar 5) (Scalar 1)
     = Return (RBool true).
Proof. repeat split; vm_compute; reflexivity. Qed.

(** C9.  The claim: on the square (0,0), (4,0), (4,4), (0,4) the point
    (2,2) gives true and (5,5) false; on the triangle (0,0), (10,0),
    (5,10) the points (5,5), (0,10), (5,1) give [true, false, true].  The
    function as written raises on each of these calls; the body after the
    polygon checks returns the three claimed values. *)
Theorem contains_examples_raise :
  contains (Seq square_x) (Seq square_y) (Scalar 2) (Scalar 2)
  = Raise (ValueError msg_poly_size)
  /\ contains (Seq square_x) (Seq square_y) (Scalar 5) (Scalar 5)
     = Raise (ValueError msg_poly_size)
  /\ contains (Seq triangle_x) (Seq triangle_y)
       (Seq [5; 0; 5]%float) (Seq [5; 10; 1]%float)
     = Raise (ValueError msg_poly_size)
  /\ classify square_x square_y (Scalar 2) (Scalar 2) = Return (RBool true)
  /\ classify square_x square_y (Scalar 5) (Scalar 5) = Return (RBool false)
  /\ classify triangle_x triangle_y
       (Seq [5; 0; 5]%float) (Seq [5; 10; 1]%float)
     = Return (RArray [true; false; true]).
Proof. repeat split; vm_compute; reflexivity. Qed.

(** C10.  The claim: on the square, the vertex (0,0) is classified as
    inside.  The function as written raises; in the body after the
    polygon checks the edge (0,0)-(4,0) does not toggle the flag, the
    edge (4,0)-(4,4) does, the closing edge (0,4)-(0,0) crosses at 0 and
    does not, and the flag returned is true. *)
Theorem contains_vertex_raises :
  contains (Seq square_x) (Seq square_y) (Scalar 0) (Scalar 0)
  = Raise (ValueError msg_poly_size)
  /\ toggles 0 0 ((0, 0), (4, 0))%float = false
  /\ toggles 0 0 ((4, 0), (4, 4))%float = true
  /\ straddles 0 ((0, 4), (0, 0))%float = true
  /\ xcross 0 ((0, 4), (0, 0))%float = 0%float
  /\ toggles 0 0 ((0, 4), (0, 0))%float = false
  /\ toggles 0 0 ((4, 4), (0, 4))%float = false
  /\ classify square_x square_y (Scalar 0) (Scalar 0) = Return (RBool true).
Proof. repeat split; vm_compute; reflexivity. Qed.

(** * Further properties *)

(** ** Binary64 comparison: NaN and the two orders *)

Module Binary64Order.

Lemma SFcompare_refl (x : spec_float) :
  SFcompare x x = match x with S754_nan => None | _ => Some Eq end.
Proof.
  destruct x as [s | s | | s m e]; cbn [SFcompare];
    try reflexivity; try (now destruct s).
  rewrite Z.compare_refl, Pos.compare_cont_refl. now destruct s.
Qed.

Lemma SFcompare_antisym (x y : spec_float) :
  SFcompare y x = option_map CompOpp (SFcompare x y).
Proof.
  destruct x as [sx | sx | | sx mx ex], y as [sy | sy | | sy my ey];
    cbn [SFcompare option_map];
    try reflexivity; try (now destruct sx); try (now destruct sy);
    try (now destruct sx, sy).
  destruct sx, sy; try reflexivity;
    rewrite (Z.compare_antisym ey ex);
    destruct (ey ?= ex)%Z; cbn [CompOpp]; try reflexivity;
    replace (Pos.compare_cont Eq my mx)
      with (CompOpp (Pos.compare_cont Eq mx my))
      by apply Pos.compare_cont_antisym;
    now destruct (Pos.compare_cont Eq mx my).
Qed.

Lemma is_nan_spec (f : float) :
  is_nan f = match Prim2SF f with S754_nan => true | _ => false end.
Proof.
  unfold is_nan. rewrite FloatAxioms.eqb_spec. unfold SFeqb.
  rewrite SFcompare_refl. now destruct (Prim2SF f).
Qed.

(** A comparison with NaN is false on either side. *)
Lemma ltb_nan (y a : float) :
  is_nan y = true -> (y <? a)%float = false /\ (a <? y)%float = false.
Proof.
  rewrite is_nan_spec, !FloatAxioms.ltb_spec. unfold SFltb.
  destruct (Prim2SF y); try discriminate. intros _.
  now destruct (Prim2SF a).
Qed.

(** Away from NaN, [a <= b] is the negation of [b < a]. *)
Lemma leb_ltb (a b : float) :
  is_nan a = false -> is_nan b = false ->
  (a <=? b)%float = negb (b <? a)%float.
Proof.
  rewrite !is_nan_spec, FloatAxioms.leb_spec, FloatAxioms.ltb_spec.
  unfold SFleb, SFltb. rewrite (SFcompare_antisym (Prim2SF a) (Prim2SF b)).
  destruct (Prim2SF a) as [sa | sa | | sa ma ea] eqn:Ea; try discriminate;
    destruct (Prim2SF b) as [sb | sb | | sb mb eb] eqn:Eb; try discriminate;
    intros _ _;
    match goal with
    | |- context [SFcompare ?u ?v] => destruct (SFcompare u v) as [[] |] eqn:E
    end; try reflexivity; cbn in E;
    try discriminate E; now destruct sa, sb.
Qed.

End Binary64Order.

(** ** The generator of edges, index by index *)

Lemma getitem_Return {A} (l : list A) (i : nat) (a : A) :
  getitem l i = Return a <-> l !! i = Some a.
Proof.
  unfold getitem. destruct (l !! i) as [b |]; split;
    intros H; now (discriminate H || injection H as ->).
Qed.

Lemma getitem_last_Return {A} (l : list A) (a : A) :
  getitem_last l = Return a <-> last l = Some a.
Proof.
  unfold getitem_last. destruct (last l) as [b |]; split;
    intros H; now (discriminate H || injection H as ->).
Qed.

Section LinesIndex.

Variable polyy : list float.

Lemma lines_from_Return (xs : list float) : forall i (p0 : point),
  i + length xs <= length polyy ->
  exists es, lines_from polyy i xs p0 = Return es.
Proof.
  induction xs as [| x xs IH]; intros i p0 Hle; cbn [lines_from].
  - now eexists.
  - cbn [length] in Hle.
    destruct (lookup_lt_is_Some_2 polyy i) as [y Hy]; [lia |].
    rewrite (getitem_Some _ _ _ Hy), bind_Return.
    destruct (IH (S i) (x, y)) as [rest ->]; [lia |]. now eexists.
Qed.

Lemma lines_from_Raise (xs : list float) : forall i (p0 : point),
  i <= length polyy -> length polyy < i + length xs ->
  lines_from polyy i xs p0 = Raise (IndexError "index out of range").
Proof.
  induction xs as [| x xs IH]; intros i p0 Hi Hlt; cbn [lines_from].
  - cbn in Hlt. lia.
  - cbn [length] in Hlt. unfold getitem at 1.
    destruct (polyy !! i) as [y |] eqn:Hy; [| reflexivity].
    apply lookup_lt_Some in Hy. rewrite bind_Return.
    rewrite IH by lia. reflexivity.
Qed.

Lemma lines_from_lookup (xs : list float) : forall i (p0 : point) es j e,
  lines_from polyy i xs p0 = Return es -> es !! j = Some e ->
  xs !! j = Some e.2.1 /\ polyy !! (i + j) = Some e.2.2
  /\ match j with
     | 0 => e.1 = p0
     | S j' => xs !! j' = Some e.1.1 /\ polyy !! (i + j') = Some e.1.2
     end.
Proof.
  induction xs as [| x xs IH]; intros i p0 es j e; cbn [lines_from].
  - intros [= <-]. discriminate.
  - destruct (getitem polyy i) as [y |] eqn:Hy; [| discriminate].
    apply getitem_Return in Hy. rewrite bind_Return.
    destruct (lines_from polyy (S i) xs (x, y)) as [rest |] eqn:Hrest;
      [| discriminate].
    rewrite bind_Return. intros [= <-] He.
    destruct j as [| j].
    + injection He as <-. cbn. now rewrite Nat.add_0_r.
    + cbn in He. destruct (IH _ _ _ _ _ Hrest He) as (H1 & H2 & H3).
      rewrite Nat.add_succ_r. cbn [lookup list_lookup]. repeat split; try assumption.
      * destruct j as [| j'].
        -- now rewrite H3.
        -- apply H3.
      * destruct j as [| j'].
        -- rewrite Nat.add_0_r, H3. exact Hy.
        -- rewrite Nat.add_succ_r. apply H3.
Qed.

End LinesIndex.

Lemma lines_Return (px py : list float) :
  0 < length px <= length py -> exists es, lines px py = Return es.
Proof.
  intros [Hpos Hle]. unfold lines.
  destruct (last_is_Some px) as [a Ha]; [now destruct px |].
  destruct (last_is_Some py) as [b Hb]; [destruct py; cbn in *; [lia | done] |].
  apply getitem_last_Return in Ha, Hb. rewrite Ha, Hb, !bind_Return.
  now apply lines_from_Return.
Qed.

Lemma lines_Raise (px py : list float) :
  px = [] \/ length py < length px ->
  lines px py = Raise (IndexError "index out of range").
Proof.
  intros [-> | Hlt]; [reflexivity |]. unfold lines, getitem_last.
  destruct (last px) as [a |]; [| reflexivity]. rewrite bind_Return.
  destruct (last py) as [b |]; [| reflexivity]. rewrite bind_Return.
  apply lines_from_Raise; [lia | exact Hlt].
Qed.

(** The y-coordinates of the edges all come from [polyy]. *)
Lemma lines_ys (P : float -> Prop) (px py : list float) (es : list edge) :
  lines px py = Return es -> Forall P py ->
  Forall (fun e => P e.1.2 /\ P e.2.2) es.
Proof.
  unfold lines. intros Hes HP.
  destruct (getitem_last px) as [a |]; [| discriminate].
  destruct (getitem_last py) as [b |] eqn:Hb; [| discriminate].
  apply getitem_last_Return in Hb. rewrite !bind_Return in Hes.
  rewrite Forall_lookup in HP. apply Forall_lookup. intros j e He.
  destruct (lines_from_lookup _ _ _ _ _ _ _ Hes He) as (_ & H2 & H3).
  destruct e as [[p0x p0y] [p1x p1y]]. cbn [fst snd] in *.
  split; [| now apply (HP _ _ H2)].
  destruct j as [| j'].
  - injection H3 as _ ->. apply last_Some in Hb as [l' ->].
    apply (HP (length l')). now rewrite list_lookup_middle.
  - now apply (HP _ _ (proj2 H3)).
Qed.

(** ** Other vertex lists with the same closed edges *)

Lemma closed_edges_snoc (l : list point) (v : point) :
  closed_edges (l ++ [v]) ≡ₚ closed_edges (v :: l).
Proof.
  destruct (last_is_Some (v :: l)) as [w Hw]; [done |].
  rewrite (closed_edges_last (l ++ [v]) v) by apply last_snoc.
  rewrite (closed_edges_last (v :: l) w Hw).
  change (v :: l ++ [v]) with ((v :: l) ++ [v]).
  rewrite neighbours_snoc, Hw, neighbours_cons.
  now rewrite <- Permutation_cons_append.
Qed.

Lemma closed_edges_app (a : list point) : forall b,
  closed_edges (b ++ a) ≡ₚ closed_edges (a ++ b).
Proof.
  induction a as [| v a IH]; intros b.
  - now rewrite app_nil_r.
  - rewrite (cons_middle v b a), app_assoc, IH, app_assoc.
    apply closed_edges_snoc.
Qed.

Lemma closed_edges_rotate (n : nat) (vs : list point) :
  closed_edges (rotate n vs) ≡ₚ closed_edges vs.
Proof.
  unfold rotate. rewrite closed_edges_app. now rewrite take_drop.
Qed.

Lemma zip_rotate {A B} (n : nat) (l : list A) (k : list B) :
  length l = length k -> zip (rotate n l) (rotate n k) = rotate n (zip l k).
Proof.
  intros Hlen. unfold rotate.
  rewrite length_zip_with, <- Hlen, Nat.min_id.
  rewrite zip_with_app by (rewrite !length_drop; lia).
  now rewrite zip_with_drop, zip_with_take.
Qed.

(** An edge from a vertex to itself, or between vertices on one level,
    never toggles the flag. *)
Lemma toggles_level (x y : float) (p0x p1x py : float) :
  toggles x y ((p0x, py), (p1x, py)) = false.
Proof. unfold toggles, straddles. now rewrite xorb_nilpotent. Qed.

Lemma crossings_cons (x y : float) (e : edge) (es : list edge) :
  crossings x y (e :: es)
  = (if toggles x y e then 1 else 0) + crossings x y es.
Proof.
  unfold crossings. rewrite filter_cons.
  destruct (toggles x y e) eqn:E.
  - rewrite decide_True; [reflexivity | now apply Is_true_true].
  - rewrite decide_False; [reflexivity | now apply Is_true_false].
Qed.

Lemma crossings_none (x y : float) (es : list edge) :
  Forall (fun e => toggles x y e = false) es -> crossings x y es = 0.
Proof.
  induction 1 as [| e es He _ IH]; [reflexivity |].
  now rewrite crossings_cons, He, IH.
Qed.

Lemma ray_none (x y : float) (es : list edge) :
  Forall (fun e => toggles x y e = false) es -> ray x y es = false.
Proof. intros H. now rewrite ray_odd_crossings, crossings_none. Qed.

(** ** The body and the polygon it is given *)

Lemma lines_Raise_inv (px py : list float) (e : exn) :
  lines px py = Raise e ->
  (px = [] \/ length py < length px) /\ e = IndexError "index out of range".
Proof.
  intros H.
  destruct (decide (px = [])) as [Hnil | Hne];
    [| destruct (decide (length py < length px)) as [Hlt | Hge]].
  - rewrite lines_Raise in H by now left. injection H as <-. now split; [left |].
  - rewrite lines_Raise in H by now right. injection H as <-. now split; [right |].
  - destruct (lines_Return px py) as [es Hes].
    + destruct px; [done | cbn in *; lia].
    + congruence.
Qed.

Lemma crossing_test_Raise (px py : list float) (x y : float) (e : exn) :
  lines px py = Raise e -> crossing_test px py x y = Raise e.
Proof. unfold crossing_test. now intros ->. Qed.

Section MaskExt.

Variables px py px' py' ly : list float.

Lemma mask_loop_ext (xs : list float) : forall i mask,
  (forall j x y, xs !! j = Some x -> ly !! (i + j) = Some y ->
     crossing_test px' py' x y = crossing_test px py x y) ->
  mask_loop px' py' ly i xs mask = mask_loop px py ly i xs mask.
Proof.
  induction xs as [| x xs IH]; intros i mask H; [reflexivity |].
  cbn [mask_loop]. unfold getitem.
  destruct (ly !! i) as [y |] eqn:Hy; [| reflexivity].
  rewrite !bind_Return, (H 0 x y) by (rewrite ?Nat.add_0_r; done).
  destruct (crossing_test px py x y) as [r |]; [| reflexivity].
  rewrite !bind_Return.
  destruct (setitem mask i r) as [mask' |]; [| reflexivity].
  rewrite !bind_Return. apply IH. intros j x' y' Hx' Hy'.
  apply (H (S j)); [exact Hx' | now rewrite Nat.add_succ_r].
Qed.

End MaskExt.

(** The body depends on the polygon through the crossing tests of the
    query points only. *)
Lemma classify_ext (px py px' py' : list float) (linex liney : arraylike) :
  (forall j x y,
     coordinates linex !! j = Some x -> coordinates liney !! j = Some y ->
     crossing_test px' py' x y = crossing_test px py x y) ->
  classify px' py' linex liney = classify px py linex liney.
Proof.
  intros H. unfold classify, cast_lines.
  destruct linex as [x | lx], liney as [y | ly];
    unfold coordinates in H; cbn [asarray fst snd] in *;
    (destruct (negb (_ =? _)); [reflexivity |]);
    rewrite !bind_Return, (mask_loop_ext _ py) by exact H;
    reflexivity.
Qed.

Lemma mask_loop_Raise_kind (px py ly : list float) (xs : list float) :
  forall i mask e,
  mask_loop px py ly i xs mask = Raise e -> exists m, e = IndexError m.
Proof.
  induction xs as [| x xs IH]; intros i mask e; cbn [mask_loop];
    [discriminate |].
  unfold getitem at 1.
  destruct (ly !! i) as [y |]; [| intros [= <-]; now eexists].
  rewrite bind_Return. unfold crossing_test.
  destruct (lines px py) as [es |] eqn:Hes.
  - rewrite !bind_Return. unfold setitem.
    destruct (decide (i < length mask)); [| intros [= <-]; now eexists].
    rewrite bind_Return. apply IH.
  - apply lines_Raise_inv in Hes as [_ ->]. intros [= <-]. now eexists.
Qed.

Lemma classify_Raise_kind (px py : list float) (linex liney : arraylike)
    (e : exn) :
  length (coordinates linex) = length (coordinates liney) ->
  classify px py linex liney = Raise e -> exists m, e = IndexError m.
Proof.
  intros Hlen. unfold classify, cast_lines.
  assert (Hb : negb (length (coordinates linex)
                     =? length (coordinates liney)) = false)
    by (apply negb_false_iff, Nat.eqb_eq, Hlen).
  destruct linex as [x | lx], liney as [y | ly];
    unfold coordinates in Hb; cbn [asarray fst snd] in *;
    rewrite Hb, bind_Return;
    match goal with
    | |- context [mask_loop ?a ?b ?c ?d ?xs ?m] =>
        destruct (mask_loop a b c d xs m) as [mask |] eqn:Hm
    end;
    rewrite ?bind_Return;
    try (intros H; injection H as <-;
         exact (mask_loop_Raise_kind _ _ _ _ _ _ _ Hm));
    try discriminate.
  unfold getitem. destruct (mask !! 0); [discriminate |].
  intros [= <-]. now eexists.
Qed.

Lemma zip_with_ext_lookup {A B C} (f g : A -> B -> C) (l : list A) :
  forall k : list B,
  (forall j a b, l !! j = Some a -> k !! j = Some b -> f a b = g a b) ->
  zip_with f l k = zip_with g l k.
Proof.
  induction l as [| a l IH]; intros [| b k] H; try reflexivity.
  cbn [zip_with]. f_equal.
  - now apply (H 0).
  - apply IH. intros j a' b' Ha Hb. now apply (H (S j)).
Qed.

Lemma rotate_nil {A} (n : nat) : rotate n (@nil A) = [].
Proof. unfold rotate. now rewrite drop_nil, take_nil. Qed.

Lemma crossing_test_rotate (n : nat) (px py : list float) (x y : float) :
  length px = length py ->
  crossing_test (rotate n px) (rotate n py) x y = crossing_test px py x y.
Proof.
  intros Hlen. destruct (decide (px = [])) as [-> | Hne].
  { destruct py; [now rewrite !rotate_nil | discriminate]. }
  unfold crossing_test.
  rewrite (lines_closed_edges px py Hlen Hne).
  rewrite lines_closed_edges, zip_rotate by
    (rewrite ?length_rotate; try assumption;
     intros E; apply (f_equal length) in E;
     rewrite length_rotate in E; now destruct px).
  rewrite !bind_Return, !ray_odd_crossings.
  now rewrite (crossings_Permutation _ _ _ _ (closed_edges_rotate _ _)).
Qed.

Lemma crossing_test_closing (px py : list float) (x0 y0 x y : float) :
  length px = length py -> head px = Some x0 -> head py = Some y0 ->
  crossing_test (px ++ [x0]) (py ++ [y0]) x y = crossing_test px py x y.
Proof.
  intros Hlen Hx Hy.
  destruct px as [| x0' tx]; [discriminate |]. injection Hx as ->.
  destruct py as [| y0' ty]; [discriminate |]. injection Hy as ->.
  unfold crossing_test.
  rewrite (lines_closed_edges _ _ Hlen) by discriminate.
  rewrite lines_closed_edges
    by (rewrite ?length_app, ?Hlen; done || now destruct tx).
  rewrite !bind_Return, !ray_odd_crossings.
  rewrite zip_with_app by exact Hlen. cbn [zip_with].
  set (t := zip tx ty).
  rewrite (crossings_Permutation _ _ _ _ (closed_edges_snoc _ _)).
  destruct (last_is_Some ((x0, y0) :: t)) as [w Hw]; [done |].
  rewrite (closed_edges_last _ w Hw).
  erewrite closed_edges_last by (rewrite last_cons_cons; exact Hw).
  rewrite !neighbours_cons, !crossings_cons.
  now rewrite toggles_level.
Qed.

(** ** Properties of the function and of its parts *)

(** X1.  [contains] returns for no arguments: it raises the TypeError of
    line 39 when one of the polygon arguments is a bare number, and the
    ValueError of line 41 for every pair of polygon sequences.  The
    errors of lines 43 and 64 are never raised. *)
Theorem contains_outcome (polyx polyy linex liney : arraylike) :
  contains polyx polyy linex liney
  = match polyx, polyy with
    | Seq _, Seq _ => Raise (ValueError msg_poly_size)
    | _, _ => Raise (TypeError msg_not_iterable)
    end.
Proof. destruct polyx, polyy; solve [reflexivity | apply contains_Seq]. Qed.

(** X2.  On coordinate sequences of one non-zero length the generator
    [lines()] yields the closed edge list of the vertices: the edge from
    the last vertex to the first, then the edges between neighbours in
    order, one edge per vertex. *)
Theorem lines_closed_polygon (px py : list float) :
  length px = length py -> px <> [] ->
  lines px py = Return (closed_edges (zip px py))
  /\ length (closed_edges (zip px py)) = length px.
Proof.
  intros Hlen Hne. split; [now apply lines_closed_edges |].
  rewrite closed_edges_length, length_zip_with. lia.
Qed.

Lemma lines_closed_polygon_witness :
  length square_x = length square_y /\ square_x <> []
  /\ lines square_x square_y = Return (closed_edges (zip square_x square_y))
  /\ length (closed_edges (zip square_x square_y)) = length square_x.
Proof.
  split; [reflexivity |]. split; [discriminate |].
  apply (lines_closed_polygon square_x square_y); [reflexivity | discriminate].
Defined.

(** X3.  Whenever [lines()] runs to its end, it has yielded as many edges
    as [polyx] has elements; the edge of index [i] ends at
    [(polyx[i], polyy[i])] and starts at [(polyx[i-1], polyy[i-1])], where
    index [-1] is Python's last element. *)
Theorem lines_edge_at (px py : list float) (es : list edge) (i : nat)
    (e : edge) :
  lines px py = Return es -> es !! i = Some e ->
  length es = length px
  /\ px !! i = Some e.2.1 /\ py !! i = Some e.2.2
  /\ match i with
     | 0 => last px = Some e.1.1 /\ last py = Some e.1.2
     | S j => px !! j = Some e.1.1 /\ py !! j = Some e.1.2
     end.
Proof.
  intros Hes He. split; [exact (lines_length _ _ _ Hes) |].
  unfold lines in Hes.
  destruct (getitem_last px) as [a |] eqn:Ha; [| discriminate].
  destruct (getitem_last py) as [b |] eqn:Hb; [| discriminate].
  apply getitem_last_Return in Ha, Hb. rewrite !bind_Return in Hes.
  destruct (lines_from_lookup _ _ _ _ _ _ _ Hes He) as (H1 & H2 & H3).
  split; [exact H1 |]. split; [exact H2 |].
  destruct i as [| j]; [| exact H3].
  destruct e as [[p0x p0y] p1]. cbn [fst snd] in *. now injection H3 as -> ->.
Qed.

Lemma lines_edge_at_witness :
  lines wedge_x [0; 3; 0; 7]%float
  = Return [((2, 7), (0, 0)); ((0, 0), (1, 3)); ((1, 3), (2, 0))]%float
  /\ [((2, 7), (0, 0)); ((0, 0), (1, 3)); ((1, 3), (2, 0))]%float !! 0
     = Some ((2, 7), (0, 0))%float
  /\ length [((2, 7), (0, 0)); ((0, 0), (1, 3)); ((1, 3), (2, 0))]%float
     = length wedge_x
  /\ wedge_x !! 0 = Some 0%float /\ [0; 3; 0; 7]%float !! 0 = Some 0%float
  /\ last wedge_x = Some 2%float /\ last [0; 3; 0; 7]%float = Some 7%float.
Proof.
  split; [reflexivity |]. split; [reflexivity |].
  apply (lines_edge_at wedge_x [0; 3; 0; 7]%float
           [((2, 7), (0, 0)); ((0, 0), (1, 3)); ((1, 3), (2, 0))]%float
           0 ((2, 7), (0, 0))%float); reflexivity.
Defined.

(** X4.  [lines()] fails, with an IndexError, exactly when [polyx] is
    empty or [polyy] is shorter than [polyx]; a longer [polyy] is not
    rejected. *)
Theorem lines_IndexError_iff (px py : list float) :
  lines px py = Raise (IndexError "index out of range")
  <-> px = [] \/ length py < length px.
Proof.
  split; [| apply lines_Raise].
  intros H. now apply lines_Raise_inv in H as [H _].
Qed.

(** X5.  Past the polygon checks, two scalar query coordinates give a
    single boolean: true exactly when the number of closed edges that
    toggle the flag is odd. *)
Theorem classify_scalars (px py : list float) (x y : float) :
  length px = length py -> px <> [] ->
  classify px py (Scalar x) (Scalar y)
  = Return (RBool (Nat.odd (crossings x y (closed_edges (zip px py))))).
Proof.
  intros Hlen Hne.
  rewrite (classify_scalar _ _ _ (lines_closed_edges _ _ Hlen Hne)).
  now rewrite ray_odd_crossings.
Qed.

Lemma classify_scalars_witness :
  length triangle_x = length triangle_y /\ triangle_x <> []
  /\ classify triangle_x triangle_y (Scalar 5) (Scalar 1)
     = Return (RBool (Nat.odd (crossings 5 1
                        (closed_edges (zip triangle_x triangle_y))))).
Proof.
  split; [reflexivity |]. split; [discriminate |].
  apply (classify_scalars triangle_x triangle_y); [reflexivity | discriminate].
Defined.

(** X6.  Past the polygon checks, query coordinates of which at least one
    is a sequence, and which hold the same number of elements, give an
    array with one boolean per query point, in input order, each the
    parity of the crossings of its own point. *)
Theorem classify_sequences (px py : list float) (linex liney : arraylike) :
  length px = length py -> px <> [] ->
  (shape_of linex, shape_of liney) <> (ScalarShape, ScalarShape) ->
  length (coordinates linex) = length (coordinates liney) ->
  classify px py linex liney
  = Return (RArray (zip_with
      (fun x y => Nat.odd (crossings x y (closed_edges (zip px py))))
      (coordinates linex) (coordinates liney))).
Proof.
  intros Hlen Hne Hshape Hq.
  rewrite (classify_array _ _ _ (lines_closed_edges _ _ Hlen Hne))
    by assumption.
  do 2 f_equal. apply zip_with_ext_lookup. intros. apply ray_odd_crossings.
Qed.

Lemma classify_sequences_witness :
  length triangle_x = length triangle_y /\ triangle_x <> []
  /\ (shape_of (Seq [5; 0]%float), shape_of (Seq [5; 10]%float))
     <> (ScalarShape, ScalarShape)
  /\ length (coordinates (Seq [5; 0]%float))
     = length (coordinates (Seq [5; 10]%float))
  /\ classify triangle_x triangle_y (Seq [5; 0]%float) (Seq [5; 10]%float)
     = Return (RArray (zip_with
         (fun x y => Nat.odd (crossings x y
                       (closed_edges (zip triangle_x triangle_y))))
         (coordinates (Seq [5; 0]%float))
         (coordinates (Seq [5; 10]%float)))).
Proof.
  split; [reflexivity |]. split; [discriminate |].
  split; [discriminate |]. split; [reflexivity |].
  apply (classify_sequences triangle_x triangle_y);
    reflexivity || discriminate.
Defined.

(** X7.  Past the polygon checks, the ValueError of line 64 is raised
    exactly when the two query coordinates hold different numbers of
    elements, a scalar counting as one element; the polygon plays no
    part in it. *)
Theorem classify_line_shape_iff (px py : list float)
    (linex liney : arraylike) :
  classify px py linex liney = Raise (ValueError msg_line_shape)
  <-> length (coordinates linex) <> length (coordinates liney).
Proof.
  split; [| apply classify_shape].
  intros H Hlen.
  destruct (classify_Raise_kind _ _ _ _ _ Hlen H) as [m Hm]. discriminate.
Qed.

(** X8.  Past the polygon checks, a scalar coordinate paired with a
    sequence is not rejected as such: with a sequence of exactly one
    element the result is an array of one boolean, with any other length
    it is the ValueError of line 64. *)
Theorem classify_scalar_with_sequence (px py : list float) (v : float)
    (l : list float) :
  length px = length py -> px <> [] ->
  classify px py (Scalar v) (Seq l)
  = match l with
    | [y] => Return (RArray
               [Nat.odd (crossings v y (closed_edges (zip px py)))])
    | _ => Raise (ValueError msg_line_shape)
    end
  /\ classify px py (Seq l) (Scalar v)
     = match l with
       | [x] => Return (RArray
                  [Nat.odd (crossings x v (closed_edges (zip px py)))])
       | _ => Raise (ValueError msg_line_shape)
       end.
Proof.
  intros Hlen Hne. destruct l as [| a [| b l]].
  - split; now apply classify_shape.
  - split; now rewrite classify_sequences.
  - split; apply classify_shape; cbn; lia.
Qed.

Lemma classify_scalar_with_sequence_witness :
  length square_x = length square_y /\ square_x <> []
  /\ classify square_x square_y (Scalar 2) (Seq [2]%float)
     = Return (RArray [Nat.odd (crossings 2 2
                         (closed_edges (zip square_x square_y)))])
  /\ classify square_x square_y (Seq [2]%float) (Scalar 2)
     = Return (RArray [Nat.odd (crossings 2 2
                         (closed_edges (zip square_x square_y)))]).
Proof.
  split; [reflexivity |]. split; [discriminate |].
  apply (classify_scalar_with_sequence square_x square_y 2 [2]%float);
    [reflexivity | discriminate].
Defined.

(** X9.  Past the polygon checks, coordinate sequences on which [lines()]
    fails (an empty [polyx], or a [polyy] shorter than [polyx]) make the
    body raise an IndexError as soon as there is a query point; with no
    query point they are never looked at, and the result is the empty
    array. *)
Theorem classify_generator_fails (px py : list float)
    (linex liney : arraylike) :
  px = [] \/ length py < length px ->
  length (coordinates linex) = length (coordinates liney) ->
  classify px py linex liney
  = match coordinates linex with
    | [] => Return (RArray [])
    | _ => Raise (IndexError "index out of range")
    end.
Proof.
  intros Hpoly Hq. apply lines_Raise in Hpoly.
  assert (Hct : forall x y,
            crossing_test px py x y = Raise (IndexError "index out of range"))
    by (intros; now apply crossing_test_Raise).
  apply Nat.eqb_eq in Hq. unfold classify, cast_lines.
  destruct linex as [x | [| x lx]], liney as [y | [| y ly]];
    unfold coordinates in *; cbn -[crossing_test] in *;
    try discriminate Hq; try reflexivity;
    rewrite ?Hq; cbn -[crossing_test]; now rewrite Hct.
Qed.

Lemma classify_generator_fails_witness :
  ([] = @nil float \/ length wedge_y < length (@nil float))
  /\ length (coordinates (Scalar 1)) = length (coordinates (Scalar 1))
  /\ classify [] wedge_y (Scalar 1) (Scalar 1)
     = match coordinates (Scalar 1) with
       | [] => Return (RArray [])
       | _ => Raise (IndexError "index out of range")
       end.
Proof.
  split; [now left |]. split; [reflexivity |].
  apply (classify_generator_fails [] wedge_y); [now left | reflexivity].
Defined.

(** X10.  Past the polygon checks, the result does not depend on the
    vertex at which the polygon starts: rotating both coordinate
    sequences by the same number of places changes nothing. *)
Theorem classify_rotate (n : nat) (px py : list float)
    (linex liney : arraylike) :
  length px = length py ->
  classify (rotate n px) (rotate n py) linex liney
  = classify px py linex liney.
Proof.
  intros Hlen. apply classify_ext. intros. now apply crossing_test_rotate.
Qed.

Lemma classify_rotate_witness :
  length wedge_x = length wedge_y
  /\ classify (rotate 1 wedge_x) (rotate 1 wedge_y) (Scalar third) (Scalar 1)
     = classify wedge_x wedge_y (Scalar third) (Scalar 1).
Proof.
  split; [reflexivity |].
  apply (classify_rotate 1 wedge_x wedge_y). reflexivity.
Defined.

(** X11.  Past the polygon checks, a polygon given with its first vertex
    repeated at the end is classified like the polygon without the
    repetition: the edge from the vertex to itself never toggles. *)
Theorem classify_closing_vertex (px py : list float) (x0 y0 : float)
    (linex liney : arraylike) :
  length px = length py -> head px = Some x0 -> head py = Some y0 ->
  classify (px ++ [x0]) (py ++ [y0]) linex liney
  = classify px py linex liney.
Proof.
  intros Hlen Hx Hy. apply classify_ext. intros.
  now apply crossing_test_closing.
Qed.

Lemma classify_closing_vertex_witness :
  length square_x = length square_y
  /\ head square_x = Some 0%float /\ head square_y = Some 0%float
  /\ classify (square_x ++ [0%float]) (square_y ++ [0%float])
       (Scalar 2) (Scalar 2)
     = classify square_x square_y (Scalar 2) (Scalar 2).
Proof.
  split; [reflexivity |]. split; [reflexivity |]. split; [reflexivity |].
  apply (classify_closing_vertex square_x square_y); reflexivity.
Defined.

(** X12.  Past the polygon checks, reversing the vertex order leaves the
    result as it is whenever, for each query point, each closed edge
    toggles the flag alike in its two directions. *)
Theorem classify_reverse (px py : list float) (linex liney : arraylike) :
  length px = length py ->
  (forall j x y,
     coordinates linex !! j = Some x -> coordinates liney !! j = Some y ->
     Forall (fun e => toggles x y (swap e) = toggles x y e)
       (closed_edges (zip px py))) ->
  classify (reverse px) (reverse py) linex liney
  = classify px py linex liney.
Proof.
  intros Hlen Hsym. apply classify_ext. intros j x y Hx Hy.
  apply crossing_test_reverse; [exact Hlen | exact (Hsym j x y Hx Hy)].
Qed.

Lemma classify_reverse_witness :
  length square_x = length square_y
  /\ (forall j x y,
        coordinates (Scalar 2) !! j = Some x ->
        coordinates (Scalar 2) !! j = Some y ->
        Forall (fun e => toggles x y (swap e) = toggles x y e)
          (closed_edges (zip square_x square_y)))
  /\ classify (reverse square_x) (reverse square_y) (Scalar 2) (Scalar 2)
     = classify square_x square_y (Scalar 2) (Scalar 2).
Proof.
  assert (H : forall j x y,
            coordinates (Scalar 2) !! j = Some x ->
            coordinates (Scalar 2) !! j = Some y ->
            Forall (fun e => toggles x y (swap e) = toggles x y e)
              (closed_edges (zip square_x square_y))).
  { intros [| j] x y Hx Hy; [| discriminate Hx].
    injection Hx as <-. injection Hy as <-.
    repeat constructor. }
  split; [reflexivity |]. split; [exact H |].
  apply (classify_reverse square_x square_y); [reflexivity | exact H].
Defined.

(** X13.  Without that proviso the reversal can change the result: in
    binary64 the two directions of an edge may interpolate to
    neighbouring numbers, and there are a polygon and a point that is
    inside in one vertex order and outside in the other. *)
Theorem classify_reverse_can_flip :
  exists (px py : list float) (x y : float) (b : bool),
    length px = length py /\ 3 <= length px
    /\ classify px py (Scalar x) (Scalar y) = Return (RBool b)
    /\ classify (reverse px) (reverse py) (Scalar x) (Scalar y)
       = Return (RBool (negb b)).
Proof.
  exists wedge_x, wedge_y, third, 1%float, true.
  repeat split; solve [vm_compute; reflexivity | cbn; lia].
Qed.

(** X14.  The crossing test gives false for a point on whose level, or
    above it, the polygon has no vertex that lies strictly above, and
    likewise for a point that all vertices lie strictly above: then no
    edge straddles the level of the point. *)
Theorem crossing_test_off_levels (px py : list float) (x y : float) :
  0 < length px <= length py ->
  Forall (fun vy => gtb vy y = false) py
  \/ Forall (fun vy => gtb vy y = true) py ->
  crossing_test px py x y = Return false.
Proof.
  intros Hpoly Hlevel. destruct (lines_Return px py Hpoly) as [es Hes].
  rewrite (crossing_test_Return _ _ _ Hes). f_equal. apply ray_none.
  assert (H : exists b, Forall (fun vy => gtb vy y = b) py)
    by (destruct Hlevel; eauto).
  destruct H as [b Hb].
  eapply Forall_impl; [exact (lines_ys _ _ _ _ Hes Hb) |].
  intros [[p0x p0y] [p1x p1y]] [H0 H1]. cbn [fst snd] in *.
  unfold toggles, straddles. now rewrite H0, H1, xorb_nilpotent.
Qed.

Lemma crossing_test_off_levels_witness :
  0 < length square_x <= length square_y
  /\ (Forall (fun vy => gtb vy 4 = false) square_y
      \/ Forall (fun vy => gtb vy 4 = true) square_y)
  /\ crossing_test square_x square_y 2 4 = Return false.
Proof.
  assert (H : Forall (fun vy => gtb vy 4 = false) square_y)
    by repeat constructor.
  split; [cbn; lia |]. split; [now left |].
  apply (crossing_test_off_levels square_x square_y 2 4);
    [cbn; lia | now left].
Defined.

(** X15.  The crossing test gives false for a query point with a NaN
    coordinate: every comparison of line 83 with it is false. *)
Theorem crossing_test_nan (px py : list float) (x y : float) :
  0 < length px <= length py ->
  is_nan x = true \/ is_nan y = true ->
  crossing_test px py x y = Return false.
Proof.
  intros Hpoly Hnan. destruct (lines_Return px py Hpoly) as [es Hes].
  rewrite (crossing_test_Return _ _ _ Hes). f_equal. apply ray_none.
  apply Forall_forall. intros [[p0x p0y] [p1x p1y]] _.
  unfold toggles, straddles, gtb. destruct Hnan as [Hx | Hy].
  - match goal with
    | |- context [(x <? ?c)%float] =>
        destruct (Binary64Order.ltb_nan x c Hx) as [-> _]
    end.
    apply andb_false_r.
  - destruct (Binary64Order.ltb_nan y p0y Hy) as [-> _].
    now destruct (Binary64Order.ltb_nan y p1y Hy) as [-> _].
Qed.

Lemma crossing_test_nan_witness :
  0 < length square_x <= length square_y
  /\ (is_nan nan = true \/ is_nan 2 = true)
  /\ crossing_test square_x square_y nan 2 = Return false.
Proof.
  split; [cbn; lia |]. split; [now left |].
  apply (crossing_test_nan square_x square_y nan 2); [cbn; lia | now left].
Defined.

(** X16.  For coordinates that are not NaN, an edge straddles the level
    [y] exactly when [y] lies in the half-open range from the lower end
    point (included) to the upper end point (excluded). *)
Theorem straddles_half_open (y p0x p0y p1x p1y : float) :
  is_nan y = false -> is_nan p0y = false -> is_nan p1y = false ->
  straddles y ((p0x, p0y), (p1x, p1y))
  = ((p0y <=? y) && (y <? p1y) || (p1y <=? y) && (y <? p0y))%float.
Proof.
  intros Hy H0 H1. unfold straddles, gtb.
  rewrite (Binary64Order.leb_ltb p0y y H0 Hy).
  rewrite (Binary64Order.leb_ltb p1y y H1 Hy).
  now destruct (y <? p0y)%float, (y <? p1y)%float.
Qed.

Lemma straddles_half_open_witness :
  is_nan 0 = false /\ is_nan 0 = false /\ is_nan 4 = false
  /\ straddles 0 ((4, 0), (4, 4))%float
     = ((0 <=? 0) && (0 <? 4) || (4 <=? 0) && (0 <? 0))%float.
Proof.
  split; [reflexivity |]. split; [reflexivity |]. split; [reflexivity |].
  apply (straddles_half_open 0 4 0 4 4); reflexivity.
Defined.

(** ** Binary64 arithmetic at the start vertex of an edge *)

Module Binary64Vertex.

Lemma SFsub_diag (s : spec_float) : sf_zero_or_nan (SF64sub s s) = true.
Proof.
  destruct s as [[] | [] | | sx m e]; try reflexivity.
  unfold SF64sub, SFsub. now rewrite Z.sub_diag.
Qed.

Lemma SFmul_zero_or_nan (a b : spec_float) :
  sf_zero_or_nan b = true -> sf_zero_or_nan (SF64mul a b) = true.
Proof. now destruct a, b. Qed.

Lemma SFdiv_zero_or_nan (a d : spec_float) :
  sf_zero_or_nan a = true -> sf_zero_or_nan (SF64div a d) = true.
Proof. now destruct a, d. Qed.

Lemma SFadd_zero_or_nan (a p : spec_float) :
  sf_zero_or_nan a = true -> SFltb p (SF64add a p) = false.
Proof.
  unfold SFltb.
  destruct a as [sa | sa | | sa ma ea]; try discriminate; intros _.
  - destruct p as [sp | sp | | sp mp ep].
    + now destruct sa, sp.
    + cbn [SF64add SFadd]. now rewrite Binary64Order.SFcompare_refl.
    + reflexivity.
    + cbn [SF64add SFadd]. now rewrite Binary64Order.SFcompare_refl.
  - now destruct p.
Qed.

(** The crossing interpolated at the level of the start vertex is NaN or
    equal to the x-coordinate of that vertex: the point is never strictly
    left of it. *)
Lemma ltb_xcross_start (p0x p0y p1x p1y : float) :
  (p0x <? (p1x - p0x) * (p0y - p0y) / (p1y - p0y) + p0x)%float = false.
Proof.
  rewrite FloatAxioms.ltb_spec, FloatAxioms.add_spec, FloatAxioms.div_spec,
    FloatAxioms.mul_spec, (FloatAxioms.sub_spec p0y p0y).
  apply SFadd_zero_or_nan, SFdiv_zero_or_nan, SFmul_zero_or_nan, SFsub_diag.
Qed.

End Binary64Vertex.

(** X17.  An edge never toggles the flag of a query point that sits on
    its start vertex, whatever the coordinates: the crossing computed on
    line 83 is then the x-coordinate of the vertex itself (or NaN), and
    the comparison is strict. *)
Theorem toggles_start_vertex (p0x p0y p1x p1y : float) :
  toggles p0x p0y ((p0x, p0y), (p1x, p1y)) = false.
Proof.
  unfold toggles, xcross.
  rewrite Binary64Vertex.ltb_xcross_start. apply andb_false_r.
Qed.

(** ** The query shapes and the vertex order, past the polygon checks *)








